(** * generate_opcode_table.py: the opcode-table generator, embedded and verified

    The script reads a 16x16 HTML grid of 6502 opcodes and prints a Rust
    constant [OPCODES : [[I; 16]; 16]].  Its single function [main] is
    embedded here as three layers, in the order the code runs them:

    - the Python built-ins it calls on characters and strings
      ([isupper], [islower], [isdigit], [int], [split]/[join], slicing);
    - the body of the inner loop, lines 21-72, which turns one cell text
      into one [I::new(...)] entry: [parse_cell] and [render];
    - the two loops and the [print] calls, lines 12-79: [row_line],
      [for_rows] and [main], in a small output-and-exception monad.

    BeautifulSoup's traversal (lines 6-9, [find_all]) is outside the
    embedding: [main] takes the already segmented document, a list of
    rows, each row the list of the [.text] of its [td] cells.

    A Rocq [ascii] stands for the Python character with the same code
    point, 0 to 255; the character classes below are Python's on that
    range, so a [string] is a Python [str] of Latin-1 characters. *)

From Stdlib Require Import List NArith ZArith Lia Bool Ascii String.
From Stdlib Require Import DecimalString.
Import ListNotations.

Open Scope string_scope.

(** ** Exceptions and results *)

(** The two exceptions the script can raise after the document is loaded:
    [int] on a character that is no decimal digit, and [rows[rowNum]] past
    the end of [rows].  The script defines no exception of its own and has
    no [try] or [raise]. *)
Inductive exn : Type :=
| ValueError
| IndexError.

Inductive res (A : Type) : Type :=
| Ok (a : A)
| Raise (e : exn).

Arguments Ok {A} a.
Arguments Raise {A} e.

Definition res_bind {A B : Type} (r : res A) (k : A -> res B) : res B :=
  match r with
  | Ok a => k a
  | Raise e => Raise e
  end.

Declare Scope res_scope.
Delimit Scope res_scope with res.
Notation "x <- r ;; k" := (res_bind r (fun x => k))
  (at level 61, r at next level, right associativity) : res_scope.

(** ** Python built-ins on characters and strings *)

Module Py.

Definition ord (c : ascii) : N := N_of_ascii c.

Definition between (lo hi n : N) : bool := (lo <=? n)%N && (n <=? hi)%N.

(** [c.isupper()] for a one-character string: A-Z, and in Latin-1 the
    capital letters U+00C0-U+00D6 and U+00D8-U+00DE. *)
Definition isupper (c : ascii) : bool :=
  let n := ord c in
  between 65 90 n || between 192 214 n || between 216 222 n.

(** [c.islower()]: a-z, and in Latin-1 U+00AA, U+00B5, U+00BA,
    U+00DF-U+00F6 and U+00F8-U+00FF. *)
Definition islower (c : ascii) : bool :=
  let n := ord c in
  between 97 122 n || (n =? 170)%N || (n =? 181)%N || (n =? 186)%N
  || between 223 246 n || between 248 255 n.

(** [c.isdigit()]: 0-9, and the superscripts U+00B2, U+00B3, U+00B9,
    which are digits for [isdigit] although [int] refuses them. *)
Definition isdigit (c : ascii) : bool :=
  let n := ord c in
  between 48 57 n || (n =? 178)%N || (n =? 179)%N || (n =? 185)%N.

(** [c.isspace()], the characters [str.split()] splits on. *)
Definition isspace (c : ascii) : bool :=
  let n := ord c in
  between 9 13 n || between 28 32 n || (n =? 133)%N || (n =? 160)%N.

(** [int(c)] for a one-character string [c]: the value of a decimal
    digit 0-9, [ValueError] for every other character. *)
Definition int (c : ascii) : res Z :=
  let n := ord c in
  if between 48 57 n then Ok (Z.of_N n - 48)%Z else Raise ValueError.

(** [str(n)], as the f-string formats an [int]. *)
Definition str (n : Z) : string := NilZero.string_of_int (Z.to_int n).

(** [s[a:b]] for [0 <= a], [0 <= b]: clipped to the string, empty when
    [b <= a]. *)
Definition slice (a b : nat) (s : string) : string := substring a (b - a) s.

(** [s[i]] for [0 <= i]. *)
Definition item (s : string) (i : nat) : res ascii :=
  match get i s with
  | Some c => Ok c
  | None => Raise IndexError
  end.

(** [''.join(s.split())]: [s] without its whitespace characters. *)
Fixpoint join_split (s : string) : string :=
  match s with
  | EmptyString => EmptyString
  | String c s' => if isspace c then join_split s' else String c (join_split s')
  end.

(** [''.join(l)] *)
Definition join (l : list string) : string := String.concat "" l.

(** [l[i]] on a list, for [0 <= i]. *)
Definition index {A : Type} (l : list A) (i : nat) : res A :=
  match nth_error l i with
  | Some x => Ok x
  | None => Raise IndexError
  end.

End Py.

(** ** The cell parser (lines 21-72) *)

(** One entry of the table: the three arguments of [I::new(Op::_, _, _)].
    The script keeps the addressing mode as text: the Rust path it will
    print, or whatever the cell held when no branch of the chain matched. *)
Record Instr : Type := I_new {
  opcode : string;
  cycles : Z;
  addr_mode : string
}.

(** Number of leading characters of [s] that satisfy [p]. *)
Fixpoint run (p : ascii -> bool) (s : string) : nat :=
  match s with
  | String c s' => if p c then S (run p s') else 0
  | EmptyString => 0
  end.

(** [while i < len(data) and p(data[i]): i += 1], the value of [i] after
    the loop. *)
Definition scan (p : ascii -> bool) (data : string) (i : nat) : nat :=
  i + run p (Py.slice i (length data) data).

(** Lines 47-70: the [if]/[elif] chain that rewrites [addr_mode].  It has
    no final [else]: a token no branch matches is left as it is. *)
Definition convert (addr_mode : string) : string :=
  if addr_mode =? "abs" then "AM::ABS"
  else if addr_mode =? "abx" then "AM::ABX"
  else if addr_mode =? "aby" then "AM::ABY"
  else if addr_mode =? "imm" then "AM::IMM"
  else if addr_mode =? "ind" then "AM::IND"
  else if addr_mode =? "izx" then "AM::INX"
  else if addr_mode =? "izy" then "AM::INY"
  else if addr_mode =? "zp" then "AM::ZPG"
  else if addr_mode =? "zpx" then "AM::ZPX"
  else if addr_mode =? "zpy" then "AM::ZPY"
  else if addr_mode =? "rel" then "AM::REL"
  else if addr_mode =? "" then "AM::IMP"
  else addr_mode.

(** Lines 23-72 on the whitespace-free text [data] of one cell. *)
Definition parse_cell (data : string) : res Instr :=
  let i := scan Py.isupper data 0 in
  let opcode := Py.slice 0 i data in
  if (length data <=? i)%nat then
    Ok (I_new opcode 0 "AM::IMP")
  else
    (c <- Py.item data i ;;
     if Py.isdigit c then
       (cycles <- Py.int c ;;
        Ok (I_new opcode cycles "AM::IMP"))
     else
       let start := i in
       let i := scan Py.islower data i in
       let addr_mode := convert (Py.slice start i data) in
       (cycles <- (if (i <? length data)%nat then (d <- Py.item data i ;; Py.int d)
                   else Ok 0%Z) ;;
        Ok (I_new opcode cycles addr_mode)))%res.

(** The f-string of lines 32, 38 and 72. *)
Definition render (ins : Instr) : string :=
  "I::new(Op::" ++ opcode ins ++ "," ++ Py.str (cycles ins) ++ ","
  ++ addr_mode ins ++ "),".

(** ** Standard output and the two loops (lines 12-79) *)

(** A run of printing code: the lines it has printed, in order, and how
    it ended.  Lines printed before an exception stay printed. *)
Definition io (A : Type) : Type := (list string * res A)%type.

Definition io_ret {A : Type} (a : A) : io A := ([], Ok a).

Definition io_bind {A B : Type} (m : io A) (k : A -> io B) : io B :=
  match m with
  | (out, Ok a) => let (out', r) := k a in ((out ++ out')%list, r)
  | (out, Raise e) => (out, Raise e)
  end.

Definition print (line : string) : io unit := ([line], Ok tt).

Definition lift {A : Type} (r : res A) : io A := ([], r).

Definition stdout {A : Type} (m : io A) : list string := fst m.
Definition outcome {A : Type} (m : io A) : res A := snd m.

Declare Scope io_scope.
Delimit Scope io_scope with io.
Notation "x <- m ;; k" := (io_bind m (fun x => k))
  (at level 61, m at next level, right associativity) : io_scope.
Notation "m ;; k" := (io_bind m (fun _ => k))
  (at level 61, right associativity) : io_scope.

(** Lines 20-72: the inner loop over the cells it is given, appending one
    rendered entry per cell to [rowOutput]. *)
Fixpoint for_cells (cells : list string) (rowOutput : list string)
  : res (list string) :=
  match cells with
  | [] => Ok rowOutput
  | cell :: cells' =>
      (ins <- parse_cell (Py.join_split cell) ;;
       for_cells cells' (rowOutput ++ [render ins])%list)%res
  end.

(** Lines 16-76 for one row: the text handed to [print].  [tl] is the
    slice [[1:]] of line 20. *)
Definition row_line (row : list string) : res string :=
  (rowOutput <- for_cells (tl row) ["["] ;;
   Ok (Py.join (rowOutput ++ ["]"])%list ++ ","))%res.

(** Lines 15-76: the outer loop over the row numbers it is given. *)
Fixpoint for_rows (rows : list (list string)) (range : list nat) : io unit :=
  match range with
  | [] => io_ret tt
  | rowNum :: range' =>
      (row <- lift (Py.index rows rowNum) ;;
       line <- lift (row_line row) ;;
       print line ;;
       for_rows rows range')%io
  end.

Definition header : string := "pub const OPCODES: [[I; 16]; 16] = [".

(** Lines 12-79, on the rows of the first table of the document. *)
Definition main (rows : list (list string)) : io unit :=
  (print header ;;
   for_rows rows (seq 1 16) ;;
   print "]")%io.


(** ** Vocabulary of the specification *)

(** The addressing modes of the specification's data model. *)
Inductive AddressingMode : Type :=
| Implied | Absolute | AbsoluteX | AbsoluteY | Immediate | Indirect
| IndexedIndirect | IndirectIndexed | ZeroPage | ZeroPageX | ZeroPageY
| Relative.

(** The text the script prints for a mode: a variant of the Rust enum
    [AM] (line 36 names [AM::IMP] the implied mode). *)
Definition tag (m : AddressingMode) : string :=
  match m with
  | Implied => "AM::IMP"
  | Absolute => "AM::ABS"
  | AbsoluteX => "AM::ABX"
  | AbsoluteY => "AM::ABY"
  | Immediate => "AM::IMM"
  | Indirect => "AM::IND"
  | IndexedIndirect => "AM::INX"
  | IndirectIndexed => "AM::INY"
  | ZeroPage => "AM::ZPG"
  | ZeroPageX => "AM::ZPX"
  | ZeroPageY => "AM::ZPY"
  | Relative => "AM::REL"
  end.

(** The resolver's table as the specification tabulates it: the eleven
    abbreviations and their modes. *)
Definition abbreviations : list (string * AddressingMode) :=
  [ ("abs", Absolute); ("abx", AbsoluteX); ("aby", AbsoluteY);
    ("imm", Immediate); ("ind", Indirect); ("izx", IndexedIndirect);
    ("izy", IndirectIndexed); ("zp", ZeroPage); ("zpx", ZeroPageX);
    ("zpy", ZeroPageY); ("rel", Relative) ].

(** [token] is one of the eleven abbreviations. *)
Definition known (token : string) : bool :=
  existsb (fun entry => token =? fst entry) abbreviations.

(** A decimal digit, 0 to 9, and its value. *)
Definition is_decimal (c : ascii) : bool := Py.between 48 57 (Py.ord c).

Definition digit_value (c : ascii) : Z := (Z.of_N (Py.ord c) - 48)%Z.

(** [int(D)] for a sequence [D] of decimal digits, as the specification
    writes the cycle count of a cell: the number [D] denotes in base ten. *)
Fixpoint int_from (acc : Z) (D : string) : Z :=
  match D with
  | EmptyString => acc
  | String c D' => int_from (10 * acc + digit_value c)%Z D'
  end.

Definition int_digits (D : string) : Z := int_from 0 D.

(** Every character of [s] satisfies [p]. *)
Fixpoint all (p : ascii -> bool) (s : string) : bool :=
  match s with
  | String c s' => p c && all p s'
  | EmptyString => true
  end.

(** [s] is not empty and its first character satisfies [p]. *)
Definition begins (p : ascii -> bool) (s : string) : bool :=
  match s with
  | String c _ => p c
  | EmptyString => false
  end.

(** What the parser makes of the characters [rest] that follow the
    mnemonic and the token: nothing there counts 0, otherwise the first
    character alone goes through [int]. *)
Definition cycles_at (rest : string) : res Z :=
  match rest with
  | EmptyString => Ok 0%Z
  | String c _ => Py.int c
  end.

(** One printed line from the descriptors of a row. *)
Definition serialize_row (instrs : list Instr) : string :=
  Py.join ("[" :: map render instrs ++ ["]"])%list ++ ",".

(** The cells of rows 1 to 16 after each row's cell 0: all that [main]
    looks at. *)
Definition consumed (rows : list (list string)) : list (list string) :=
  map (@tl string) (firstn 16 (tl rows)).

(** The 16x16 window the specification takes as consumed: rows 1 to 16,
    cells 1 to 16 of each. *)
Definition window (rows : list (list string)) : list (list string) :=
  map (firstn 16) (consumed rows).

(** Print one line per row, stopping at the first row that fails. *)
Fixpoint emit_rows (rs : list (list string)) : io unit :=
  match rs with
  | [] => io_ret tt
  | row :: rs' =>
      (line <- lift (row_line row) ;;
       print line ;;
       emit_rows rs')%io
  end.

(** The descriptor [ins] is what the parser makes of the cell [cell]. *)
Definition derived (cell : string) (ins : Instr) : Prop :=
  parse_cell (Py.join_split cell) = Ok ins.

(** The descriptors [instrs] are, one for one and in order, what the
    parser makes of the cells of [row] after its cell 0. *)
Definition derived_row (row : list string) (instrs : list Instr) : Prop :=
  Forall2 derived (tl row) instrs.

(** ** Sample documents *)

Definition nop : Instr := I_new "NOP" 2 "AM::IMP".

(** A row of the grid: the index cell, then [n] cells NOP 2. *)
Definition nop_row (n : nat) : list string := "0x" :: repeat "NOP 2" n.

Definition header_row : list string := repeat "x" 17.

(** 16 full rows under the header row. *)
Definition square : list (list string) := header_row :: repeat (nop_row 16) 16.

(** Row 1 has 15 cells after its index cell. *)
Definition narrow : list (list string) :=
  header_row :: nop_row 15 :: repeat (nop_row 16) 15.

(** Only 15 rows under the header row. *)
Definition short : list (list string) := header_row :: repeat (nop_row 16) 15.

(** Row 1 has a 17th cell after its index cell, holding [cell]. *)
Definition wide (cell : string) : list (list string) :=
  header_row :: (nop_row 16 ++ [cell])%list :: repeat (nop_row 16) 15.

(** * Properties *)

(** ** The script on sample cells and documents *)

Example parse_ORAizx6 : parse_cell "ORAizx6" = Ok (I_new "ORA" 6 "AM::INX").
Proof. reflexivity. Qed.

Example parse_BRK7 : parse_cell "BRK7" = Ok (I_new "BRK" 7 "AM::IMP").
Proof. reflexivity. Qed.

Example parse_JMPind : parse_cell "JMPind" = Ok (I_new "JMP" 0 "AM::IND").
Proof. reflexivity. Qed.

Example parse_KIL : parse_cell "KIL" = Ok (I_new "KIL" 0 "AM::IMP").
Proof. reflexivity. Qed.

Example parse_star : parse_cell "LDAabx4*" = Ok (I_new "LDA" 4 "AM::ABX").
Proof. reflexivity. Qed.

Example parse_bang : parse_cell "LDAabx!" = Raise ValueError.
Proof. reflexivity. Qed.

Example render_ORAizx6 :
  render (I_new "ORA" 6 "AM::INX") = "I::new(Op::ORA,6,AM::INX),".
Proof. reflexivity. Qed.

Example row_line_two :
  row_line ["0x"; "BRK 7"; "ORA izx 6"]
  = Ok "[I::new(Op::BRK,7,AM::IMP),I::new(Op::ORA,6,AM::INX),],".
Proof. reflexivity. Qed.

Example main_square :
  main (repeat ["x"; "NOP 2"] 17)
  = (header :: repeat "[I::new(Op::NOP,2,AM::IMP),]," 16 ++ ["]"], Ok tt)%list.
Proof. reflexivity. Qed.

Example main_empty : main [] = ([header], Raise IndexError).
Proof. reflexivity. Qed.

(** ** Strings: runs, slices and concatenation *)

Section Strings.

Variable p : ascii -> bool.

Lemma length_app (a b : string) :
  String.length (a ++ b) = String.length a + String.length b.
Proof. induction a as [|c a IH]; simpl; [reflexivity | now rewrite IH]. Qed.

Lemma app_empty_r (a : string) : a ++ "" = a.
Proof. induction a as [|c a IH]; simpl; [reflexivity | now rewrite IH]. Qed.

Lemma app_assoc (a b c : string) : (a ++ b) ++ c = a ++ b ++ c.
Proof. induction a as [|x a IH]; simpl; [reflexivity | now rewrite IH]. Qed.

Lemma substring_all (s : string) : substring 0 (String.length s) s = s.
Proof. induction s as [|c s IH]; simpl; [reflexivity | now rewrite IH]. Qed.

Lemma substring_head (a b : string) :
  substring 0 (String.length a) (a ++ b) = a.
Proof.
  induction a as [|c a IH]; simpl.
  - now destruct b.
  - now rewrite IH.
Qed.

Lemma substring_skip (a b : string) (m : nat) :
  substring (String.length a) m (a ++ b) = substring 0 m b.
Proof. induction a as [|c a IH]; simpl; [reflexivity | apply IH]. Qed.

Lemma get_skip (a b : string) : get (String.length a) (a ++ b) = get 0 b.
Proof. induction a as [|c a IH]; simpl; [reflexivity | apply IH]. Qed.

(** [(a ++ b)[0:len(a)] = a] *)
Lemma slice_head (a b : string) : Py.slice 0 (String.length a) (a ++ b) = a.
Proof. unfold Py.slice. rewrite Nat.sub_0_r. apply substring_head. Qed.

(** [(a ++ b)[len(a):] = b] *)
Lemma slice_tail (a b : string) :
  Py.slice (String.length a) (String.length (a ++ b)) (a ++ b) = b.
Proof.
  unfold Py.slice. rewrite length_app, substring_skip.
  replace (String.length a + String.length b - String.length a)
    with (String.length b) by lia.
  apply substring_all.
Qed.

(** [(a ++ b ++ c)[len(a):len(a)+len(b)] = b] *)
Lemma slice_mid (a b c : string) :
  Py.slice (String.length a) (String.length a + String.length b) (a ++ b ++ c)
  = b.
Proof.
  unfold Py.slice. rewrite substring_skip.
  replace (String.length a + String.length b - String.length a)
    with (String.length b) by lia.
  apply substring_head.
Qed.

Lemma run_stop (s : string) : begins p s = false -> run p s = 0.
Proof. destruct s as [|c s]; simpl; [reflexivity | now intros ->]. Qed.

Lemma run_app (a b : string) :
  all p a = true -> run p (a ++ b) = String.length a + run p b.
Proof.
  induction a as [|c a IH]; simpl; [reflexivity |].
  intros H. apply andb_prop in H as [-> H]. now rewrite IH.
Qed.

(** The scan started at the end of [a] runs over exactly [b]. *)
Lemma scan_app (a b c : string) :
  all p b = true -> begins p c = false ->
  scan p (a ++ b ++ c) (String.length a) = String.length a + String.length b.
Proof.
  intros Hb Hc. unfold scan. rewrite slice_tail, run_app, (run_stop c) by assumption.
  lia.
Qed.

(** Every string is a run of [p] followed by a rest that does not begin
    with [p]. *)
Lemma split_run (s : string) :
  exists a b, s = a ++ b /\ all p a = true /\ begins p b = false.
Proof.
  induction s as [|c s (a & b & -> & Ha & Hb)].
  - now exists "", "".
  - destruct (p c) eqn:Hc.
    + exists (String c a), b. simpl. now rewrite Hc, Ha.
    + exists "", (String c (a ++ b)). simpl. now rewrite Hc.
Qed.

Lemma all_begins (q : ascii -> bool) (a b : string) :
  (forall c, p c = true -> q c = false) ->
  all p a = true -> a <> "" -> begins q (a ++ b) = false.
Proof.
  intros Hpq Ha Hne. destruct a as [|c a]; [congruence |].
  simpl in *. apply andb_prop in Ha as [Hc _]. now apply Hpq.
Qed.

End Strings.

(** ** Character classes *)

Ltac by_cases_on_char c :=
  destruct c as [[] [] [] [] [] [] [] []]; vm_compute; intuition congruence.

Lemma lower_not_upper (c : ascii) : Py.islower c = true -> Py.isupper c = false.
Proof. by_cases_on_char c. Qed.

Lemma lower_not_digit (c : ascii) : Py.islower c = true -> Py.isdigit c = false.
Proof. by_cases_on_char c. Qed.

Lemma decimal_not_upper (c : ascii) : is_decimal c = true -> Py.isupper c = false.
Proof. by_cases_on_char c. Qed.

Lemma decimal_not_lower (c : ascii) : is_decimal c = true -> Py.islower c = false.
Proof. by_cases_on_char c. Qed.

(** [int] accepts exactly the decimal digits. *)
Lemma int_decimal (c : ascii) :
  Py.int c = if is_decimal c then Ok (digit_value c) else Raise ValueError.
Proof. reflexivity. Qed.

Lemma int_range (c : ascii) (n : Z) : Py.int c = Ok n -> (0 <= n <= 9)%Z.
Proof.
  unfold Py.int, Py.between.
  destruct (48 <=? Py.ord c)%N eqn:Hlo; destruct (Py.ord c <=? 57)%N eqn:Hhi;
    simpl; try discriminate.
  intros [= <-]. apply N.leb_le in Hlo, Hhi. lia.
Qed.

Lemma int_raises (c : ascii) (e : exn) : Py.int c = Raise e -> e = ValueError.
Proof. rewrite int_decimal. destruct (is_decimal c); congruence. Qed.

Lemma cycles_at_range (rest : string) (n : Z) :
  cycles_at rest = Ok n -> (0 <= n <= 9)%Z.
Proof.
  destruct rest as [|c rest]; simpl.
  - intros [= <-]. lia.
  - apply int_range.
Qed.

(** ** The cell parser on a text split into mnemonic, token and rest *)

Lemma item_skip (a b : string) :
  Py.item (a ++ b) (String.length a) = Py.item b 0.
Proof. unfold Py.item. now rewrite get_skip. Qed.

(** The parser on [M ++ tok ++ rest], where [M] is the leading run of
    upper-case characters and [tok] the run of lower-case characters after
    it: the mnemonic is [M], the mode what the chain makes of [tok], the
    cycle count what [int] makes of the first character of [rest]. *)
Lemma parse_cell_app (M tok rest : string) :
  all Py.isupper M = true ->
  all Py.islower tok = true ->
  begins Py.isupper (tok ++ rest) = false ->
  begins Py.islower rest = false ->
  parse_cell (M ++ tok ++ rest)
  = (n <- cycles_at rest ;; Ok (I_new M n (convert tok)))%res.
Proof.
  intros HM Htok Hup Hlow. unfold parse_cell.
  assert (Hi : scan Py.isupper (M ++ tok ++ rest) 0 = String.length M).
  { apply (scan_app Py.isupper "" M (tok ++ rest) HM Hup). }
  rewrite Hi, slice_head.
  destruct tok as [|c tok]; simpl append in *.
  - (* no token *)
    destruct rest as [|d rest].
    + rewrite app_empty_r, Nat.leb_refl. reflexivity.
    + replace (String.length (M ++ String d rest) <=? String.length M)%nat
        with false
        by (symmetry; apply Nat.leb_gt; rewrite length_app; simpl; lia).
      rewrite item_skip. unfold Py.item at 1. simpl get. unfold res_bind at 1.
      simpl cycles_at.
      destruct (Py.isdigit d) eqn:Hd; [reflexivity |].
      assert (Hj : scan Py.islower (M ++ String d rest) (String.length M)
                   = String.length M + String.length "").
      { apply (scan_app Py.islower M "" (String d rest)); [reflexivity | exact Hlow]. }
      rewrite Hj. simpl String.length. rewrite Nat.add_0_r.
      unfold Py.slice at 1. rewrite Nat.sub_diag.
      replace (substring (String.length M) 0 (M ++ String d rest)) with ""
        by (rewrite substring_skip; reflexivity).
      replace (String.length M <? String.length (M ++ String d rest))%nat
        with true
        by (symmetry; apply Nat.ltb_lt; rewrite length_app; simpl; lia).
      rewrite item_skip. reflexivity.
  - (* a token of at least one character *)
    simpl in Htok. apply andb_prop in Htok as [Hc Htok].
    set (t := String c tok).
    assert (Ht : all Py.islower t = true) by (simpl; now rewrite Hc, Htok).
    replace (String.length (M ++ String c (tok ++ rest)) <=? String.length M)%nat
      with false
      by (symmetry; apply Nat.leb_gt; rewrite length_app; simpl; lia).
    rewrite item_skip. unfold Py.item at 1. simpl get. unfold res_bind at 1.
    rewrite (lower_not_digit c Hc).
    change (String c (tok ++ rest)) with (t ++ rest).
    rewrite (scan_app Py.islower M t rest Ht Hlow), slice_mid.
    destruct rest as [|d rest].
    + replace (String.length M + String.length t <? String.length (M ++ t ++ ""))%nat
        with false
        by (symmetry; apply Nat.ltb_ge; rewrite !length_app; simpl; lia).
      reflexivity.
    + replace (String.length M + String.length t
               <? String.length (M ++ t ++ String d rest))%nat
        with true
        by (symmetry; apply Nat.ltb_lt; rewrite !length_app; simpl; lia).
      rewrite <- length_app, <- app_assoc, item_skip. reflexivity.
Qed.

(** Every text splits that way. *)
Lemma split_cell (data : string) :
  exists M tok rest,
    data = M ++ tok ++ rest
    /\ all Py.isupper M = true
    /\ all Py.islower tok = true
    /\ begins Py.isupper (tok ++ rest) = false
    /\ begins Py.islower rest = false.
Proof.
  destruct (split_run Py.isupper data) as (M & s & -> & HM & Hs).
  destruct (split_run Py.islower s) as (tok & rest & -> & Htok & Hrest).
  now exists M, tok, rest.
Qed.

(** The parser raises nothing but [int]'s [ValueError]. *)
Lemma parse_cell_raises (data : string) (e : exn) :
  parse_cell data = Raise e -> e = ValueError.
Proof.
  destruct (split_cell data) as (M & tok & rest & -> & HM & Htok & Hup & Hlow).
  rewrite parse_cell_app by assumption.
  destruct rest as [|c rest]; simpl; [discriminate |].
  destruct (Py.int c) eqn:Hc; simpl; [discriminate |].
  intros [= <-]. now apply int_raises in Hc.
Qed.

(** ** The resolver *)

Lemma convert_abbreviation (A : string) (T : AddressingMode) :
  In (A, T) abbreviations ->
  convert A = tag T /\ all Py.islower A = true /\ A <> "".
Proof.
  unfold abbreviations. simpl.
  intros H. repeat destruct H as [H | H]; try contradiction;
    injection H as <- <-; repeat split; discriminate.
Qed.

Lemma convert_unknown (tok : string) :
  known tok = false -> tok <> "" -> convert tok = tok.
Proof.
  unfold known, abbreviations. simpl. intros H Hne.
  repeat (apply orb_false_elim in H as [? H]).
  apply eqb_neq in Hne.
  unfold convert.
  repeat match goal with
         | E : (tok =? _) = false |- _ => rewrite E; clear E
         end.
  reflexivity.
Qed.

Lemma lower_token_not_tag (tok : string) (T : AddressingMode) :
  all Py.islower tok = true -> tok <> tag T.
Proof.
  intros Hlow ->. destruct T; discriminate.
Qed.

(** ** C8: the resolver's table *)

(** C8.  The chain of lines 47-70 sends each of the eleven abbreviations
    to the text of its mode, as the specification tabulates them, and the
    empty token to the implied mode. *)
Theorem resolver_table :
  convert "abs" = tag Absolute
  /\ convert "abx" = tag AbsoluteX
  /\ convert "aby" = tag AbsoluteY
  /\ convert "imm" = tag Immediate
  /\ convert "ind" = tag Indirect
  /\ convert "izx" = tag IndexedIndirect
  /\ convert "izy" = tag IndirectIndexed
  /\ convert "zp" = tag ZeroPage
  /\ convert "zpx" = tag ZeroPageX
  /\ convert "zpy" = tag ZeroPageY
  /\ convert "rel" = tag Relative
  /\ convert "" = tag Implied.
Proof. repeat split. Qed.

(** ** C1, C4: a token the resolver does not know *)

(** C1, as the specification states it, fails on the cell FOOxyz3: its
    token xyz is none of the eleven abbreviations, and the parse raises
    nothing; it returns a descriptor. *)
Lemma unknown_token_not_raised :
  all Py.isupper "FOO" = true
  /\ all Py.islower "xyz" = true
  /\ known "xyz" = false
  /\ parse_cell ("FOO" ++ "xyz" ++ "3") = Ok (I_new "FOO" 3 "xyz")
  /\ forall e, parse_cell ("FOO" ++ "xyz" ++ "3") <> Raise e.
Proof. repeat split. discriminate. Qed.

(** C1, amended.  A cell whose token [tok] is not empty and none of the
    eleven abbreviations raises no failure for it: the token goes into the
    descriptor as it is.  The parse fails only as any other does, with
    [ValueError] when the character after the token is no decimal digit. *)
Theorem unknown_token_kept (M tok rest : string) :
  all Py.isupper M = true ->
  all Py.islower tok = true ->
  tok <> "" ->
  known tok = false ->
  begins Py.islower rest = false ->
  parse_cell (M ++ tok ++ rest)
  = (n <- cycles_at rest ;; Ok (I_new M n tok))%res.
Proof.
  intros HM Htok Hne Hunk Hrest.
  rewrite parse_cell_app; try assumption.
  - now rewrite convert_unknown.
  - apply (all_begins Py.islower); auto using lower_not_upper.
Qed.

Lemma unknown_token_kept_witness :
  all Py.isupper "FOO" = true
  /\ all Py.islower "xyz" = true
  /\ "xyz" <> ""
  /\ known "xyz" = false
  /\ begins Py.islower "3" = false
  /\ parse_cell ("FOO" ++ "xyz" ++ "3")
     = (n <- cycles_at "3" ;; Ok (I_new "FOO" n "xyz"))%res.
Proof.
  refine (conj eq_refl (conj eq_refl (conj _ (conj eq_refl (conj eq_refl _))))).
  - discriminate.
  - apply (unknown_token_kept "FOO" "xyz" "3"); try reflexivity; discriminate.
Defined.

(** C4, as stated, fails on the cell LDAfoo2: the token foo is not
    recognized and the descriptor's mode is foo, not the implied mode that
    the same cell without its token gets. *)
Lemma unknown_token_not_implied :
  all Py.isupper "LDA" = true
  /\ all Py.islower "foo" = true
  /\ known "foo" = false
  /\ parse_cell ("LDA" ++ "foo" ++ "2") = Ok (I_new "LDA" 2 "foo")
  /\ parse_cell ("LDA" ++ "2") = Ok (I_new "LDA" 2 (tag Implied))
  /\ "foo" <> tag Implied.
Proof. repeat split. discriminate. Qed.

(** C4, amended.  In the source as written, a token that is not empty
    and not recognized is not treated as an absent one: the descriptor's
    addressing mode is the token itself, which is not the implied mode. *)
Theorem unknown_token_is_mode (M tok rest : string) (d : Instr) :
  all Py.isupper M = true ->
  all Py.islower tok = true ->
  tok <> "" ->
  known tok = false ->
  begins Py.islower rest = false ->
  parse_cell (M ++ tok ++ rest) = Ok d ->
  addr_mode d = tok /\ addr_mode d <> tag Implied.
Proof.
  intros HM Htok Hne Hunk Hrest.
  rewrite parse_cell_app; try assumption.
  - rewrite convert_unknown by assumption.
    destruct (cycles_at rest); simpl; [| discriminate].
    intros [= <-]. simpl. split; [reflexivity |].
    exact (lower_token_not_tag tok Implied Htok).
  - apply (all_begins Py.islower); auto using lower_not_upper.
Qed.

Lemma unknown_token_is_mode_witness :
  parse_cell ("LDA" ++ "foo" ++ "2") = Ok (I_new "LDA" 2 "foo")
  /\ addr_mode (I_new "LDA" 2 "foo") = "foo"
  /\ addr_mode (I_new "LDA" 2 "foo") <> tag Implied.
Proof.
  split; [reflexivity |].
  apply (unknown_token_is_mode "LDA" "foo" "2"); try reflexivity; discriminate.
Defined.

(** ** C2, C5, C7, C10: the cycle count *)

Lemma slice_first (c : ascii) (s : string) : Py.slice 0 1 (String c s) = String c "".
Proof. unfold Py.slice. simpl. now destruct s. Qed.

Lemma cycles_at_decimal (D : string) :
  all is_decimal D = true -> D <> "" ->
  cycles_at D = Ok (int_digits (Py.slice 0 1 D)).
Proof.
  destruct D as [|c D]; [congruence |]. simpl. intros H _.
  apply andb_prop in H as [Hc _].
  rewrite slice_first, int_decimal, Hc.
  unfold int_digits. simpl. reflexivity.
Qed.

Lemma decimal_begins (p : ascii -> bool) (D : string) :
  (forall c, is_decimal c = true -> p c = false) ->
  all is_decimal D = true -> begins p D = false.
Proof.
  intros Hp. destruct D as [|c D]; simpl; [reflexivity |].
  intros H. apply andb_prop in H as [Hc _]. now apply Hp.
Qed.

(** C2, as stated, fails on the cell ORAizx12: the digit sequence is 12
    and the cycle count of the descriptor is 1. *)
Lemma two_digit_cycles_after_token :
  all Py.isupper "ORA" = true
  /\ In ("izx", IndexedIndirect) abbreviations
  /\ all is_decimal "12" = true
  /\ int_digits "12" = 12%Z
  /\ parse_cell ("ORA" ++ "izx" ++ "12") = Ok (I_new "ORA" 1 (tag IndexedIndirect))
  /\ parse_cell ("ORA" ++ "izx" ++ "12")
     <> Ok (I_new "ORA" (int_digits "12") (tag IndexedIndirect)).
Proof.
  refine (conj eq_refl (conj _ (conj eq_refl (conj eq_refl (conj eq_refl _))))).
  - simpl. tauto.
  - discriminate.
Qed.

(** C2, amended.  For a mnemonic [M], an abbreviation [A] of the table
    with mode [T] and a non-empty sequence [D] of decimal digits, the cell
    [M ++ A ++ D] yields the descriptor with mnemonic [M], mode [T] and, as
    cycle count, the value of the first digit of [D] alone: [int(D[0:1])],
    which is [int(D)] when [D] is a single digit. *)
Theorem abbreviation_then_digits (M A D : string) (T : AddressingMode) :
  all Py.isupper M = true ->
  In (A, T) abbreviations ->
  all is_decimal D = true ->
  D <> "" ->
  parse_cell (M ++ A ++ D)
  = Ok (I_new M (int_digits (Py.slice 0 1 D)) (tag T)).
Proof.
  intros HM HA HD Hne.
  destruct (convert_abbreviation A T HA) as (Hconv & Hlow & HAne).
  rewrite parse_cell_app; try assumption.
  - now rewrite cycles_at_decimal, Hconv.
  - apply (all_begins Py.islower); auto using lower_not_upper.
  - apply decimal_begins; auto using decimal_not_lower.
Qed.

Lemma abbreviation_then_digits_witness :
  parse_cell ("ORA" ++ "izx" ++ "6") = Ok (I_new "ORA" 6 (tag IndexedIndirect))
  /\ int_digits (Py.slice 0 1 "6") = int_digits "6".
Proof.
  split; [| reflexivity].
  apply (abbreviation_then_digits "ORA" "izx" "6" IndexedIndirect);
    [reflexivity | simpl; tauto | reflexivity | discriminate].
Defined.

(** C5, as stated, fails on the cell BRK12: the digit sequence is 12 and
    the cycle count of the descriptor is 1. *)
Lemma two_digit_cycles_after_mnemonic :
  all Py.isupper "BRK" = true
  /\ all is_decimal "12" = true
  /\ int_digits "12" = 12%Z
  /\ parse_cell ("BRK" ++ "12") = Ok (I_new "BRK" 1 (tag Implied))
  /\ parse_cell ("BRK" ++ "12") <> Ok (I_new "BRK" (int_digits "12") (tag Implied)).
Proof.
  refine (conj eq_refl (conj eq_refl (conj eq_refl (conj eq_refl _)))).
  discriminate.
Qed.

(** C5, amended.  For a mnemonic [M] followed at once by a non-empty
    sequence [D] of decimal digits, the cell [M ++ D] yields the descriptor
    with mnemonic [M], the implied mode and, as cycle count, the value of
    the first digit of [D] alone. *)
Theorem mnemonic_then_digits (M D : string) :
  all Py.isupper M = true ->
  all is_decimal D = true ->
  D <> "" ->
  parse_cell (M ++ D)
  = Ok (I_new M (int_digits (Py.slice 0 1 D)) (tag Implied)).
Proof.
  intros HM HD Hne.
  change (M ++ D) with (M ++ "" ++ D).
  rewrite parse_cell_app; try assumption; try reflexivity.
  - now rewrite cycles_at_decimal.
  - apply decimal_begins; auto using decimal_not_upper.
  - apply decimal_begins; auto using decimal_not_lower.
Qed.

Lemma mnemonic_then_digits_witness :
  parse_cell ("BRK" ++ "7") = Ok (I_new "BRK" 7 (tag Implied))
  /\ int_digits (Py.slice 0 1 "7") = int_digits "7".
Proof.
  split; [| reflexivity].
  apply (mnemonic_then_digits "BRK" "7"); [reflexivity | reflexivity | discriminate].
Defined.

(** C7, as stated, fails on the cells BRK7x and LDAabx4*: what follows
    the mnemonic, or the token, is not all decimal digits, and the parse
    returns a descriptor. *)
Lemma trailing_characters_not_checked :
  all is_decimal "7x" = false
  /\ parse_cell ("BRK" ++ "7x") = Ok (I_new "BRK" 7 (tag Implied))
  /\ all is_decimal "4*" = false
  /\ parse_cell ("LDA" ++ "abx" ++ "4*") = Ok (I_new "LDA" 4 (tag AbsoluteX))
  /\ forall e, parse_cell ("BRK" ++ "7x") <> Raise e
            /\ parse_cell ("LDA" ++ "abx" ++ "4*") <> Raise e.
Proof.
  refine (conj eq_refl (conj eq_refl (conj eq_refl (conj eq_refl _)))).
  intros e. split; discriminate.
Qed.

(** C7, amended.  When characters [c], [rest] follow the mnemonic [M] and
    the token [tok] (empty when there is none), the parse fails, with
    [ValueError], exactly when the first of them, [c], is not a decimal
    digit.  When [c] is one the descriptor is produced with the value of
    [c] as cycle count, whatever [rest] holds. *)
Theorem first_trailing_character_decides (M tok rest : string) (c : ascii) :
  all Py.isupper M = true ->
  all Py.islower tok = true ->
  begins Py.isupper (tok ++ String c rest) = false ->
  Py.islower c = false ->
  parse_cell (M ++ tok ++ String c rest)
  = if is_decimal c then Ok (I_new M (digit_value c) (convert tok))
    else Raise ValueError.
Proof.
  intros HM Htok Hup Hc.
  rewrite parse_cell_app by assumption.
  simpl cycles_at. rewrite int_decimal.
  now destruct (is_decimal c).
Qed.

Lemma first_trailing_character_decides_witness :
  parse_cell ("LDA" ++ "abx" ++ String "4" "*") = Ok (I_new "LDA" 4 (tag AbsoluteX))
  /\ parse_cell ("LDA" ++ "abx" ++ String "!" "4") = Raise ValueError.
Proof.
  split.
  - apply (first_trailing_character_decides "LDA" "abx" "*" "4"); reflexivity.
  - apply (first_trailing_character_decides "LDA" "abx" "4" "!"); reflexivity.
Defined.

(** C10.  Whenever the parse of a cell completes, the cycle count of the
    descriptor is between 0 and 9: it is 0 or the value of one character
    of the text. *)
Theorem cycles_single_digit (data : string) (d : Instr) :
  parse_cell data = Ok d ->
  (0 <= cycles d <= 9)%Z
  /\ (cycles d = 0%Z
      \/ exists i c, get i data = Some c /\ Py.int c = Ok (cycles d)).
Proof.
  destruct (split_cell data) as (M & tok & rest & -> & HM & Htok & Hup & Hlow).
  rewrite parse_cell_app by assumption.
  destruct (cycles_at rest) as [n |] eqn:Hn; simpl; [| discriminate].
  intros [= <-]. simpl. split.
  - now apply cycles_at_range in Hn.
  - destruct rest as [|c rest]; simpl in Hn.
    + left. congruence.
    + right. exists (String.length (M ++ tok)), c.
      rewrite <- app_assoc, get_skip. now split.
Qed.

Lemma cycles_single_digit_witness :
  parse_cell "ORAizx6" = Ok (I_new "ORA" 6 "AM::INX")
  /\ (0 <= cycles (I_new "ORA" 6 "AM::INX") <= 9)%Z.
Proof.
  split; [reflexivity |].
  apply (cycles_single_digit "ORAizx6" (I_new "ORA" 6 "AM::INX")). reflexivity.
Defined.

(** ** C6: a text without a mnemonic *)

(** C6, as stated, fails on the empty cell and on the cell 7: neither
    begins with an upper-case letter, and each yields a descriptor, whose
    mnemonic is empty. *)
Lemma empty_mnemonic_produced :
  begins Py.isupper "" = false
  /\ parse_cell "" = Ok (I_new "" 0 (tag Implied))
  /\ begins Py.isupper "7" = false
  /\ parse_cell "7" = Ok (I_new "" 7 (tag Implied))
  /\ row_line ["0x"; ""] = Ok "[I::new(Op::,0,AM::IMP),],".
Proof. repeat split. Qed.

(** C6, amended.  No failure is reported for a cell text that is empty
    or does not begin with an upper-case letter: the empty text yields the
    descriptor with the empty mnemonic, the implied mode and 0 cycles, and
    whenever a parse completes, the mnemonic of its descriptor is empty
    exactly when the text is empty or does not begin with an upper-case
    letter. *)
Theorem mnemonic_empty_iff (data : string) (d : Instr) :
  parse_cell data = Ok d ->
  (opcode d = "" <-> begins Py.isupper data = false)
  /\ parse_cell "" = Ok (I_new "" 0 (tag Implied)).
Proof.
  intros H. split; [| reflexivity]. revert H.
  destruct (split_cell data) as (M & tok & rest & -> & HM & Htok & Hup & Hlow).
  rewrite parse_cell_app by assumption.
  destruct (cycles_at rest) as [n |]; simpl; [| discriminate].
  intros [= <-]. simpl.
  destruct M as [|c M]; simpl.
  - split; [intros _; exact Hup | reflexivity].
  - simpl in HM. apply andb_prop in HM as [Hc _]. rewrite Hc.
    split; discriminate.
Qed.

Lemma mnemonic_empty_iff_witness :
  parse_cell "7" = Ok (I_new "" 7 "AM::IMP")
  /\ (opcode (I_new "" 7 "AM::IMP") = "" <-> begins Py.isupper "7" = false).
Proof.
  split; [reflexivity |].
  apply (mnemonic_empty_iff "7" (I_new "" 7 "AM::IMP")). reflexivity.
Defined.

(** ** The two loops *)

Lemma for_cells_ok (cells : list string) (instrs : list Instr) :
  Forall2 derived cells instrs ->
  forall acc, for_cells cells acc = Ok (acc ++ map render instrs)%list.
Proof.
  induction 1 as [| cell ins cells instrs Hd _ IH]; intros acc; simpl.
  - now rewrite List.app_nil_r.
  - rewrite Hd. simpl. rewrite IH, <- List.app_assoc. reflexivity.
Qed.

Lemma for_cells_inv (cells : list string) :
  forall acc out,
    for_cells cells acc = Ok out ->
    exists instrs, Forall2 derived cells instrs.
Proof.
  induction cells as [| cell cells IH]; intros acc out; simpl.
  - intros _. exists []. constructor.
  - destruct (parse_cell (Py.join_split cell)) as [ins |] eqn:Hd; simpl;
      [| discriminate].
    intros H. destruct (IH _ _ H) as [instrs Hall].
    exists (ins :: instrs). now constructor.
Qed.

Lemma row_line_ok (row : list string) (instrs : list Instr) :
  derived_row row instrs -> row_line row = Ok (serialize_row instrs).
Proof.
  intros H. unfold row_line. now rewrite (for_cells_ok _ _ H).
Qed.

Lemma row_line_inv (row : list string) (line : string) :
  row_line row = Ok line -> exists instrs, derived_row row instrs.
Proof.
  unfold row_line.
  destruct (for_cells (tl row) ["["]) as [out |] eqn:H; simpl; [| discriminate].
  intros _. exact (for_cells_inv _ _ _ H).
Qed.

Lemma emit_rows_ok (rs : list (list string)) (table : list (list Instr)) :
  Forall2 derived_row rs table ->
  emit_rows rs = (map serialize_row table, Ok tt).
Proof.
  induction 1 as [| row instrs rs table Hd _ IH]; simpl; [reflexivity |].
  now rewrite (row_line_ok _ _ Hd), IH.
Qed.

Lemma emit_rows_inv (rs : list (list string)) :
  outcome (emit_rows rs) = Ok tt -> exists table, Forall2 derived_row rs table.
Proof.
  induction rs as [| row rs IH]; simpl.
  - intros _. exists []. constructor.
  - destruct (row_line row) as [line |] eqn:Hline; simpl; [| discriminate].
    destruct (emit_rows rs) as [out [[] |]] eqn:Hrs; simpl; [| discriminate].
    intros _. destruct (row_line_inv _ _ Hline) as [instrs Hd].
    destruct (IH eq_refl) as [table Ht].
    exists (instrs :: table). now constructor.
Qed.

(** A row is read through its cells after cell 0 only. *)
Lemma emit_rows_tl (rs rs' : list (list string)) :
  map (@tl string) rs = map (@tl string) rs' -> emit_rows rs = emit_rows rs'.
Proof.
  revert rs'. induction rs as [| row rs IH]; intros [| row' rs']; simpl;
    try discriminate; [reflexivity |].
  intros [= Hrow Hrs]. unfold row_line. now rewrite Hrow, (IH _ Hrs).
Qed.

(** The outer loop, started at row number [length pre], prints the rows
    it finds and raises [IndexError] at the first row number that is past
    the end. *)
Lemma for_rows_seq (n : nat) :
  forall pre rs : list (list string),
    for_rows (pre ++ rs) (seq (List.length pre) n)
    = (emit_rows (firstn n rs) ;;
       if (List.length rs <? n)%nat then lift (Raise IndexError) else io_ret tt)%io.
Proof.
  induction n as [| n IH]; intros pre rs.
  - reflexivity.
  - cbn [seq for_rows]. unfold Py.index.
    destruct rs as [| row rs].
    + rewrite List.app_nil_r.
      replace (nth_error pre (List.length pre)) with (@None (list string))
        by (symmetry; apply nth_error_None; lia).
      reflexivity.
    + rewrite nth_error_app2, Nat.sub_diag by lia. cbn [nth_error].
      replace (pre ++ row :: rs)%list with ((pre ++ [row]) ++ rs)%list
        by (now rewrite <- List.app_assoc).
      replace (S (List.length pre)) with (List.length (pre ++ [row])%list)
        by (rewrite List.length_app; simpl; lia).
      rewrite IH. cbn [firstn emit_rows List.length].
      change (S (List.length rs) <? S n)%nat with (List.length rs <? n)%nat.
      unfold lift at 1. cbn [io_bind].
      destruct (row_line row) as [line |]; simpl; [| reflexivity].
      destruct (emit_rows (firstn n rs)) as [out [[] |]]; simpl; [| reflexivity].
      now destruct (List.length rs <? n)%nat.
Qed.

(** [main] as one pass over the rows after row 0. *)
Lemma main_unfold (rows : list (list string)) :
  main rows
  = (print header ;;
     (emit_rows (firstn 16 (tl rows)) ;;
      if (List.length (tl rows) <? 16)%nat then lift (Raise IndexError)
      else io_ret tt) ;;
     print "]")%io.
Proof.
  unfold main. destruct rows as [| row0 rs].
  - reflexivity.
  - cbn [tl]. now rewrite <- (for_rows_seq 16 [row0] rs).
Qed.

Lemma length_tl_lt (rows : list (list string)) :
  (List.length (tl rows) <? 16)%nat = (List.length rows <? 17)%nat.
Proof. destruct rows; reflexivity. Qed.

(** A run in which every consumed cell parses. *)
Lemma main_parsed (rows : list (list string)) (table : list (list Instr)) :
  Forall2 derived_row (firstn 16 (tl rows)) table ->
  main rows
  = if (List.length rows <? 17)%nat
    then (header :: map serialize_row table, Raise IndexError)
    else ((header :: map serialize_row table) ++ ["]"], Ok tt)%list.
Proof.
  intros H. rewrite main_unfold, (emit_rows_ok _ _ H), length_tl_lt.
  destruct (List.length rows <? 17)%nat; simpl.
  - now rewrite !List.app_nil_r.
  - now rewrite !List.app_nil_r.
Qed.

(** A run that ends without exception had 16 rows after row 0 and
    parsed every consumed cell. *)
Lemma main_ok_inv (rows : list (list string)) :
  outcome (main rows) = Ok tt ->
  (17 <= List.length rows)%nat
  /\ exists table, Forall2 derived_row (firstn 16 (tl rows)) table.
Proof.
  rewrite main_unfold, length_tl_lt.
  generalize (emit_rows_inv (firstn 16 (tl rows))).
  generalize (firstn 16 (tl rows)) as rs. intros rs Hinv.
  destruct (emit_rows rs) as [out [[] |]]; simpl; [| discriminate].
  destruct (List.length rows <? 17)%nat eqn:Hlen; simpl; [discriminate |].
  intros _. split.
  - apply Nat.ltb_ge in Hlen. exact Hlen.
  - apply Hinv. reflexivity.
Qed.

Lemma nth_error_tl {A : Type} (l : list A) (i : nat) :
  nth_error (tl l) i = nth_error l (S i).
Proof. destruct l; [now destruct i | reflexivity]. Qed.

Lemma Forall2_nth_error {A B : Type} (R : A -> B -> Prop)
      (l : list A) (l' : list B) :
  Forall2 R l l' ->
  forall i x, nth_error l i = Some x ->
              exists y, nth_error l' i = Some y /\ R x y.
Proof.
  induction 1 as [| a b l l' Hab _ IH]; intros [| i] x; simpl; try discriminate.
  - intros [= <-]. now exists b.
  - apply IH.
Qed.

Lemma Forall2_repeat {A B : Type} (R : A -> B -> Prop) (x : A) (y : B) (n : nat) :
  R x y -> Forall2 R (repeat x n) (repeat y n).
Proof. intros H. induction n; simpl; now constructor. Qed.

(** [main] reads its argument through [consumed] only. *)
Lemma main_consumed (rows rows' : list (list string)) :
  consumed rows' = consumed rows -> main rows' = main rows.
Proof.
  unfold consumed. intros H. rewrite !main_unfold, (emit_rows_tl _ _ H).
  apply (f_equal (@List.length _)) in H.
  rewrite !length_map, !length_firstn in H.
  replace (List.length (tl rows') <? 16)%nat
    with (List.length (tl rows) <? 16)%nat; [reflexivity |].
  destruct (Nat.ltb_spec (List.length (tl rows)) 16);
    destruct (Nat.ltb_spec (List.length (tl rows')) 16); lia || reflexivity.
Qed.

Lemma nop_row_derived (n : nat) : derived_row (nop_row n) (repeat nop n).
Proof. apply Forall2_repeat. reflexivity. Qed.

(** ** C3: the shape of the input *)

(** C3, as stated, fails on two documents.  In [narrow], row 1 has 15
    cells after its index cell: the run raises nothing and prints the whole
    table, row 1 with 15 entries.  In [short], 15 rows follow the header
    row: the run raises [IndexError], no shape failure, and by then has
    printed the header line and 15 lines of the table. *)
Lemma shape_violations_pass :
  map (@List.length string) (consumed narrow) = (15 :: repeat 16 15)%list
  /\ main narrow
     = ((header :: serialize_row (repeat nop 15)
                :: repeat (serialize_row (repeat nop 16)) 15) ++ ["]"], Ok tt)%list
  /\ List.length (consumed short) = 15
  /\ main short
     = ((header :: repeat (serialize_row (repeat nop 16)) 15), Raise IndexError)%list.
Proof. repeat split. Qed.

(** C3, amended.  The shape of the input is not checked.  When every
    consumed cell parses: a document with fewer than 16 rows after row 0
    makes the run raise [IndexError] at the first missing row, after the
    header line and one line for each row present have been printed; a
    document with 16 rows or more after row 0 raises nothing, and each of
    rows 1 to 16 is printed with one entry for each cell it has after its
    cell 0, 16 of them or not; rows after the 16th are ignored. *)
Theorem shape_not_checked (rows : list (list string)) (table : list (list Instr)) :
  Forall2 derived_row (firstn 16 (tl rows)) table ->
  stdout (main rows)
  = (header :: map serialize_row table
       ++ if (List.length rows <? 17)%nat then [] else ["]"])%list
  /\ outcome (main rows)
     = if (List.length rows <? 17)%nat then Raise IndexError else Ok tt.
Proof.
  intros H. rewrite (main_parsed rows table H).
  destruct (List.length rows <? 17)%nat; simpl.
  - now rewrite List.app_nil_r.
  - split; reflexivity.
Qed.

Lemma shape_not_checked_witness :
  stdout (main short) = (header :: repeat (serialize_row (repeat nop 16)) 15)%list
  /\ outcome (main short) = Raise IndexError
  /\ outcome (main narrow) = Ok tt.
Proof.
  assert (Hs : Forall2 derived_row (firstn 16 (tl short)) (repeat (repeat nop 16) 15)).
  { apply (Forall2_repeat derived_row (nop_row 16) (repeat nop 16) 15).
    apply nop_row_derived. }
  assert (Hn : Forall2 derived_row (firstn 16 (tl narrow))
                       (repeat nop 15 :: repeat (repeat nop 16) 15)).
  { constructor; [apply nop_row_derived |].
    apply (Forall2_repeat derived_row (nop_row 16) (repeat nop 16) 15).
    apply nop_row_derived. }
  destruct (shape_not_checked short _ Hs) as [Hout Hres].
  destruct (shape_not_checked narrow _ Hn) as [_ Hres'].
  split; [exact Hout | split; [exact Hres | exact Hres']].
Defined.

(** ** C9: the table follows the grid *)

(** C9, as stated, fails on the document [wide]: row 1 has a 17th cell
    after its index cell and that cell is consumed.  Two documents with the
    same rows 1-16 and cells 1-16 are printed differently, and the line of
    row 1 has 17 entries. *)
Lemma seventeenth_cell_consumed :
  window (wide "BRK 7") = window (wide "KIL")
  /\ main (wide "BRK 7")
     = ((header :: serialize_row (repeat nop 16 ++ [I_new "BRK" 7 "AM::IMP"])
                :: repeat (serialize_row (repeat nop 16)) 15) ++ ["]"], Ok tt)%list
  /\ main (wide "KIL") <> main (wide "BRK 7").
Proof.
  split; [reflexivity | split; [reflexivity |]].
  intros H. apply (f_equal (fun m => nth 1 (stdout m) "")) in H.
  vm_compute in H. discriminate H.
Qed.

(** C9, amended.  For every document on which the run ends without
    exception, what is printed between the header line and the closing
    line is a table of 16 rows in which row [r] holds one descriptor for
    each cell of source row [r+1] after its cell 0, the one at column [c]
    derived from cell [c+1]: source order, no reordering.  Rows 1 to 16
    are consumed and, of each, every cell after cell 0 (cells 1 to 16 when
    the row has 17 cells): the run is the same on two documents that agree
    there. *)
Theorem table_follows_grid (rows : list (list string)) :
  outcome (main rows) = Ok tt ->
  exists table : list (list Instr),
    stdout (main rows) = (header :: map serialize_row table ++ ["]"])%list
    /\ List.length table = 16
    /\ (forall r, r < 16 ->
          exists row instrs,
            nth_error rows (S r) = Some row
            /\ nth_error table r = Some instrs
            /\ List.length instrs = List.length row - 1
            /\ forall c cell, nth_error row (S c) = Some cell ->
                 exists ins, nth_error instrs c = Some ins /\ derived cell ins)
    /\ forall rows', consumed rows' = consumed rows -> main rows' = main rows.
Proof.
  intros Hok. destruct (main_ok_inv rows Hok) as [Hlen [table Ht]].
  exists table.
  pose proof (main_parsed rows table Ht) as Hmain.
  replace (List.length rows <? 17)%nat with false in Hmain
    by (symmetry; apply Nat.ltb_ge; exact Hlen).
  assert (Hl : List.length table = 16).
  { rewrite <- (Forall2_length Ht), length_firstn.
    clear - Hlen. destruct rows as [| row0 rs]; cbn [tl List.length] in *; lia. }
  split; [now rewrite Hmain |]. split; [exact Hl |]. split.
  - intros r Hr.
    destruct (nth_error rows (S r)) as [row |] eqn:Hrow.
    2:{ apply nth_error_None in Hrow. lia. }
    assert (Hrow' : nth_error (firstn 16 (tl rows)) r = Some row).
    { rewrite nth_error_firstn, nth_error_tl.
      replace (r <? 16)%nat with true by (symmetry; now apply Nat.ltb_lt).
      exact Hrow. }
    destruct (Forall2_nth_error _ _ _ Ht r row Hrow') as (instrs & Hi & Hd).
    exists row, instrs. repeat split; try assumption.
    + rewrite <- (Forall2_length Hd). destruct row; simpl; lia.
    + intros c cell Hc. apply (Forall2_nth_error _ _ _ Hd).
      now rewrite nth_error_tl.
  - apply main_consumed.
Qed.

Lemma table_follows_grid_witness :
  outcome (main square) = Ok tt
  /\ exists table : list (list Instr),
       stdout (main square) = (header :: map serialize_row table ++ ["]"])%list
       /\ List.length table = 16.
Proof.
  split; [reflexivity |].
  destruct (table_follows_grid square eq_refl) as (table & Hout & Hlen & _).
  exists table. split; [exact Hout | exact Hlen].
Defined.

(** * Further properties of the script *)

(** ** The fields of a descriptor *)

(** A completed parse, field by field. *)
Lemma parse_cell_fields (data : string) (d : Instr) :
  parse_cell data = Ok d ->
  exists M tok rest n,
    data = M ++ tok ++ rest
    /\ all Py.isupper M = true
    /\ all Py.islower tok = true
    /\ begins Py.isupper (tok ++ rest) = false
    /\ begins Py.islower rest = false
    /\ cycles_at rest = Ok n
    /\ d = I_new M n (convert tok).
Proof.
  destruct (split_cell data) as (M & tok & rest & -> & HM & Htok & Hup & Hlow).
  rewrite parse_cell_app by assumption.
  destruct (cycles_at rest) as [n |] eqn:Hn; simpl; [| discriminate].
  intros [= <-]. now exists M, tok, rest, n.
Qed.

(** X1.  A cell that is a mnemonic and nothing else, lines 30-33: the
    descriptor has that mnemonic, 0 cycles and the implied mode. *)
Theorem mnemonic_alone (M : string) :
  all Py.isupper M = true ->
  parse_cell M = Ok (I_new M 0 (tag Implied)).
Proof.
  intros HM.
  rewrite <- (app_empty_r M) at 1.
  change (M ++ "") with (M ++ "" ++ "").
  now rewrite parse_cell_app.
Qed.

Lemma mnemonic_alone_witness :
  all Py.isupper "KIL" = true /\ parse_cell "KIL" = Ok (I_new "KIL" 0 (tag Implied)).
Proof. split; [reflexivity |]. apply (mnemonic_alone "KIL"). reflexivity. Defined.

(** X2.  A mnemonic and one of the eleven abbreviations with nothing
    after it, line 71: the descriptor has the abbreviation's mode and 0
    cycles. *)
Theorem abbreviation_alone (M A : string) (T : AddressingMode) :
  all Py.isupper M = true ->
  In (A, T) abbreviations ->
  parse_cell (M ++ A) = Ok (I_new M 0 (tag T)).
Proof.
  intros HM HA.
  destruct (convert_abbreviation A T HA) as (Hconv & Hlow & HAne).
  rewrite <- (app_empty_r A) at 1.
  rewrite parse_cell_app; try assumption; try reflexivity.
  - simpl. now rewrite Hconv.
  - apply (all_begins Py.islower); auto using lower_not_upper.
Qed.

Lemma abbreviation_alone_witness :
  all Py.isupper "JMP" = true
  /\ In ("ind", Indirect) abbreviations
  /\ parse_cell ("JMP" ++ "ind") = Ok (I_new "JMP" 0 (tag Indirect)).
Proof.
  assert (Hin : In ("ind", Indirect) abbreviations) by (simpl; tauto).
  split; [reflexivity | split; [exact Hin |]].
  apply (abbreviation_alone "JMP" "ind" Indirect); [reflexivity | exact Hin].
Defined.

(** ** Whitespace in a cell (lines 21-22) *)

Lemma join_split_app (a b : string) :
  Py.join_split (a ++ b) = Py.join_split a ++ Py.join_split b.
Proof.
  induction a as [| c a IH]; simpl; [reflexivity |].
  destruct (Py.isspace c); simpl; now rewrite IH.
Qed.

Lemma join_split_blank (ws : string) :
  all Py.isspace ws = true -> Py.join_split ws = "".
Proof.
  induction ws as [| c ws IH]; simpl; [reflexivity |].
  intros H. apply andb_prop in H as [-> H]. now apply IH.
Qed.

(** X3.  Whitespace in a cell is dropped before the cell is read: a run
    [ws] of whitespace characters at any place of the text changes neither
    the descriptor nor the failure. *)
Theorem whitespace_ignored (a ws b : string) :
  all Py.isspace ws = true ->
  parse_cell (Py.join_split (a ++ ws ++ b)) = parse_cell (Py.join_split (a ++ b)).
Proof.
  intros H. now rewrite !join_split_app, (join_split_blank ws H).
Qed.

Lemma whitespace_ignored_witness :
  all Py.isspace " " = true
  /\ parse_cell (Py.join_split ("ORA" ++ " " ++ "izx 6"))
     = parse_cell (Py.join_split ("ORA" ++ "izx 6")).
Proof.
  split; [reflexivity |].
  apply (whitespace_ignored "ORA" " " "izx 6"). reflexivity.
Defined.

(** X4.  A cell that holds nothing but whitespace, or nothing at all, is
    no failure: it gives the descriptor with the empty mnemonic, 0 cycles
    and the implied mode. *)
Theorem blank_cell (cell : string) :
  all Py.isspace cell = true ->
  derived cell (I_new "" 0 (tag Implied)).
Proof.
  intros H. unfold derived. now rewrite (join_split_blank cell H).
Qed.

Lemma blank_cell_witness :
  all Py.isspace "  " = true /\ derived "  " (I_new "" 0 (tag Implied)).
Proof. split; [reflexivity |]. apply (blank_cell "  "). reflexivity. Defined.

(** ** Invariants of a descriptor *)

(** X5.  The mnemonic of a descriptor is the longest run of upper-case
    characters the text begins with: upper-case throughout, a prefix of
    the text, and followed by no upper-case character. *)
Theorem opcode_leading_run (data : string) (d : Instr) :
  parse_cell data = Ok d ->
  all Py.isupper (opcode d) = true
  /\ exists rest, data = opcode d ++ rest /\ begins Py.isupper rest = false.
Proof.
  intros H.
  destruct (parse_cell_fields data d H)
    as (M & tok & rest & n & -> & HM & _ & Hup & _ & _ & ->).
  simpl. split; [exact HM |]. now exists (tok ++ rest).
Qed.

Lemma opcode_leading_run_witness :
  parse_cell "ORAizx6" = Ok (I_new "ORA" 6 "AM::INX")
  /\ all Py.isupper (opcode (I_new "ORA" 6 "AM::INX")) = true.
Proof.
  split; [reflexivity |].
  apply (opcode_leading_run "ORAizx6" (I_new "ORA" 6 "AM::INX")). reflexivity.
Defined.

Lemma known_abbreviation (tok : string) :
  known tok = true -> exists T, In (tok, T) abbreviations.
Proof.
  unfold known. intros H. apply existsb_exists in H as ([A T] & Hin & Heq).
  simpl in Heq. apply eqb_eq in Heq as ->. now exists T.
Qed.

(** X6.  The addressing-mode field of a descriptor is the text of one of
    the twelve modes, or else a non-empty run of lower-case characters
    that is none of the eleven abbreviations. *)
Theorem addr_mode_field (data : string) (d : Instr) :
  parse_cell data = Ok d ->
  (exists T, addr_mode d = tag T)
  \/ (all Py.islower (addr_mode d) = true
      /\ addr_mode d <> ""
      /\ known (addr_mode d) = false).
Proof.
  intros H.
  destruct (parse_cell_fields data d H)
    as (M & tok & rest & n & -> & _ & Htok & _ & _ & _ & ->).
  simpl. destruct (known tok) eqn:Hk.
  - left. destruct (known_abbreviation tok Hk) as [T HT].
    exists T. now apply convert_abbreviation.
  - destruct (string_dec tok "") as [-> | Hne].
    + left. now exists Implied.
    + right. rewrite (convert_unknown tok Hk Hne). now repeat split.
Qed.

Lemma addr_mode_field_witness :
  parse_cell "LDAfoo2" = Ok (I_new "LDA" 2 "foo")
  /\ ((exists T, addr_mode (I_new "LDA" 2 "foo") = tag T)
      \/ (all Py.islower (addr_mode (I_new "LDA" 2 "foo")) = true
          /\ addr_mode (I_new "LDA" 2 "foo") <> ""
          /\ known (addr_mode (I_new "LDA" 2 "foo")) = false)).
Proof.
  split; [reflexivity |].
  apply (addr_mode_field "LDAfoo2" (I_new "LDA" 2 "foo")). reflexivity.
Defined.

(** ** The printed entry determines the descriptor *)

Lemma app_cancel_r (t : string) :
  forall a b : string, a ++ t = b ++ t -> a = b.
Proof.
  induction a as [| c a IH]; intros [| c' b] H; simpl in H.
  - reflexivity.
  - apply (f_equal String.length) in H. simpl in H. rewrite length_app in H. lia.
  - apply (f_equal String.length) in H. simpl in H. rewrite length_app in H. lia.
  - injection H as -> H. now rewrite (IH b H).
Qed.

Lemma upper_comma_split :
  forall M1 M2 s1 s2 : string,
    all Py.isupper M1 = true -> all Py.isupper M2 = true ->
    M1 ++ String "," s1 = M2 ++ String "," s2 ->
    M1 = M2 /\ s1 = s2.
Proof.
  induction M1 as [| c M1 IH]; intros [| c' M2] s1 s2 H1 H2 H; simpl in *.
  - injection H as <-. now split.
  - injection H as <- _. discriminate H2.
  - injection H as -> _. discriminate H1.
  - injection H as -> H.
    apply andb_prop in H1 as [_ H1]. apply andb_prop in H2 as [_ H2].
    destruct (IH M2 s1 s2 H1 H2 H) as [-> ->]. now split.
Qed.

Lemma str_digit_split (n1 n2 : Z) (s1 s2 : string) :
  (0 <= n1 <= 9)%Z -> (0 <= n2 <= 9)%Z ->
  Py.str n1 ++ s1 = Py.str n2 ++ s2 ->
  n1 = n2 /\ s1 = s2.
Proof.
  intros H1 H2.
  assert (D1 : (n1 = 0 \/ n1 = 1 \/ n1 = 2 \/ n1 = 3 \/ n1 = 4 \/ n1 = 5
                \/ n1 = 6 \/ n1 = 7 \/ n1 = 8 \/ n1 = 9)%Z) by lia.
  assert (D2 : (n2 = 0 \/ n2 = 1 \/ n2 = 2 \/ n2 = 3 \/ n2 = 4 \/ n2 = 5
                \/ n2 = 6 \/ n2 = 7 \/ n2 = 8 \/ n2 = 9)%Z) by lia.
  clear H1 H2.
  repeat destruct D1 as [D1 | D1]; repeat destruct D2 as [D2 | D2]; subst;
    cbn; intros H; (discriminate H || (injection H as <-; now split)).
Qed.

(** X7.  Two descriptors the parser produced and that are printed as
    the same entry are the same descriptor: the [I::new(...)] text loses
    nothing of the mnemonic, the cycle count and the mode. *)
Theorem render_injective (data1 data2 : string) (d1 d2 : Instr) :
  parse_cell data1 = Ok d1 ->
  parse_cell data2 = Ok d2 ->
  render d1 = render d2 ->
  d1 = d2.
Proof.
  intros P1 P2.
  destruct (parse_cell_fields data1 d1 P1)
    as (M1 & tok1 & rest1 & n1 & _ & HM1 & _ & _ & _ & Hn1 & ->).
  destruct (parse_cell_fields data2 d2 P2)
    as (M2 & tok2 & rest2 & n2 & _ & HM2 & _ & _ & _ & Hn2 & ->).
  apply cycles_at_range in Hn1, Hn2.
  unfold render. cbn [opcode cycles addr_mode].
  generalize (convert tok1) as a1. generalize (convert tok2) as a2.
  intros a2 a1 H.
  cbn [append] in H. injection H as H.
  destruct (upper_comma_split _ _ _ _ HM1 HM2 H) as [-> H'].
  destruct (str_digit_split _ _ _ _ Hn1 Hn2 H') as [-> H''].
  cbn [append] in H''. injection H'' as H''.
  now rewrite (app_cancel_r _ _ _ H'').
Qed.

Lemma render_injective_witness :
  parse_cell "ORAizx6" = Ok (I_new "ORA" 6 "AM::INX")
  /\ parse_cell "ORAizx6*" = Ok (I_new "ORA" 6 "AM::INX")
  /\ I_new "ORA" 6 "AM::INX" = I_new "ORA" 6 "AM::INX".
Proof.
  split; [reflexivity | split; [reflexivity |]].
  apply (render_injective "ORAizx6" "ORAizx6*"); reflexivity.
Defined.

(** ** How a run ends *)

Lemma for_cells_raise (cells : list string) (cell : string) (e : exn) :
  In cell cells ->
  parse_cell (Py.join_split cell) = Raise e ->
  forall acc, for_cells cells acc = Raise ValueError.
Proof.
  induction cells as [| c cells IH]; simpl; [contradiction |].
  intros Hin Hraise acc.
  destruct (parse_cell (Py.join_split c)) as [ins |] eqn:Hc; simpl.
  - destruct Hin as [-> | Hin]; [congruence |]. now apply IH.
  - now rewrite (parse_cell_raises _ _ Hc).
Qed.

Lemma for_cells_raise_inv (cells : list string) :
  forall acc e,
    for_cells cells acc = Raise e ->
    e = ValueError
    /\ exists cell e', In cell cells /\ parse_cell (Py.join_split cell) = Raise e'.
Proof.
  induction cells as [| c cells IH]; intros acc e; simpl; [discriminate |].
  destruct (parse_cell (Py.join_split c)) as [ins |] eqn:Hc; simpl.
  - intros H. destruct (IH _ _ H) as (-> & cell & e' & Hin & He).
    split; [reflexivity |]. exists cell, e'. auto.
  - intros [= <-]. split; [exact (parse_cell_raises _ _ Hc) |].
    exists c, e0. auto.
Qed.

Lemma row_line_raise (row : list string) (cell : string) (e : exn) :
  In cell (tl row) ->
  parse_cell (Py.join_split cell) = Raise e ->
  row_line row = Raise ValueError.
Proof.
  intros Hin He. unfold row_line. now rewrite (for_cells_raise _ _ _ Hin He).
Qed.

Lemma row_line_raise_inv (row : list string) (e : exn) :
  row_line row = Raise e ->
  e = ValueError
  /\ exists cell e', In cell (tl row) /\ parse_cell (Py.join_split cell) = Raise e'.
Proof.
  unfold row_line.
  destruct (for_cells (tl row) ["["]) as [out |] eqn:H; simpl; [discriminate |].
  intros [= <-]. exact (for_cells_raise_inv _ _ _ H).
Qed.

(** The rows before the first row that fails are printed, and nothing
    after them. *)
Lemma emit_rows_stop (good : list (list string)) (table : list (list Instr))
      (bad : list string) (rest : list (list string)) (e : exn) :
  Forall2 derived_row good table ->
  row_line bad = Raise e ->
  emit_rows (good ++ bad :: rest) = (map serialize_row table, Raise e).
Proof.
  intros Hgood Hbad.
  induction Hgood as [| row instrs good table Hd _ IH]; simpl.
  - now rewrite Hbad.
  - now rewrite (row_line_ok _ _ Hd), IH.
Qed.

Lemma emit_rows_raise_inv (rs : list (list string)) (e : exn) :
  outcome (emit_rows rs) = Raise e ->
  e = ValueError
  /\ exists row cell e',
       In row rs /\ In cell (tl row)
       /\ parse_cell (Py.join_split cell) = Raise e'.
Proof.
  induction rs as [| row rs IH]; simpl; [discriminate |].
  destruct (row_line row) as [line |] eqn:Hline; simpl.
  - destruct (emit_rows rs) as [out [[] |]]; simpl in *; [discriminate |].
    intros H. destruct (IH H) as (-> & r & cell & e' & Hr & Hc & He).
    split; [reflexivity |]. exists r, cell, e'. auto.
  - intros [= <-].
    destruct (row_line_raise_inv _ _ Hline) as (-> & cell & e' & Hc & He).
    split; [reflexivity |]. exists row, cell, e'. auto.
Qed.

Lemma emit_rows_raise (rs : list (list string)) (row : list string)
      (cell : string) (e : exn) :
  In row rs -> In cell (tl row) ->
  parse_cell (Py.join_split cell) = Raise e ->
  outcome (emit_rows rs) = Raise ValueError.
Proof.
  intros Hrow Hcell He.
  induction rs as [| r rs IH]; simpl; [contradiction |].
  destruct (row_line r) as [line |] eqn:Hline; simpl.
  - destruct Hrow as [-> | Hrow].
    + rewrite (row_line_raise _ _ _ Hcell He) in Hline. discriminate.
    + specialize (IH Hrow).
      destruct (emit_rows rs) as [out [[] |]]; simpl in *; congruence.
  - destruct (row_line_raise_inv _ _ Hline) as [-> _]. reflexivity.
Qed.

Lemma emit_rows_count (rs : list (list string)) :
  match outcome (emit_rows rs) with
  | Ok _ => List.length (stdout (emit_rows rs)) = List.length rs
  | Raise _ => List.length (stdout (emit_rows rs)) < List.length rs
  end.
Proof.
  induction rs as [| row rs IH]; simpl; [reflexivity |].
  destruct (row_line row) as [line |]; simpl; [| lia].
  destruct (emit_rows rs) as [out [[] |]]; simpl in *; lia.
Qed.

(** X8.  Whatever the document, the header line is printed first.  A
    run that ends without exception has printed 17 more lines, the last
    one the closing bracket; a run that ends with an exception has printed
    fewer than 16 more lines: a truncated table is never 18 lines long. *)
Theorem output_lines (rows : list (list string)) :
  exists lines,
    stdout (main rows) = header :: lines
    /\ match outcome (main rows) with
       | Ok _ => List.length lines = 17 /\ last lines "" = "]"
       | Raise _ => List.length lines < 16
       end.
Proof.
  rewrite main_unfold, length_tl_lt.
  pose proof (emit_rows_count (firstn 16 (tl rows))) as Hc.
  pose proof (length_firstn 16 (tl rows)) as Hf.
  pose proof (length_tl_lt rows) as Ht.
  revert Hc Hf. generalize (firstn 16 (tl rows)) as rs. intros rs Hc Hf.
  destruct (emit_rows rs) as [out [[] |]]; cbn [outcome stdout fst snd] in Hc;
    simpl.
  - destruct (List.length rows <? 17)%nat eqn:Hlen; simpl.
    + exists out. rewrite List.app_nil_r. split; [reflexivity |].
      apply Nat.ltb_lt in Ht. lia.
    + exists (out ++ ["]"])%list. rewrite List.app_nil_r.
      split; [reflexivity |].
      apply Nat.ltb_ge in Ht.
      rewrite List.length_app, last_last. simpl. split; [lia | reflexivity].
  - exists out. split; [reflexivity | lia].
Qed.

(** X9.  When a cell of a row does not parse, the run stops there with
    [ValueError]: the header line and the lines of the rows before that
    row are printed, the row itself and the closing line are not, and the
    rows after it are not looked at, missing or not. *)
Theorem bad_cell_stops_run (rows good rest : list (list string))
        (table : list (list Instr)) (bad : list string) (cell : string) (e : exn) :
  firstn 16 (tl rows) = (good ++ bad :: rest)%list ->
  Forall2 derived_row good table ->
  In cell (tl bad) ->
  parse_cell (Py.join_split cell) = Raise e ->
  main rows = (header :: map serialize_row table, Raise ValueError).
Proof.
  intros Hrows Hgood Hcell He.
  rewrite main_unfold, Hrows.
  rewrite (emit_rows_stop good table bad rest ValueError Hgood
             (row_line_raise _ _ _ Hcell He)).
  reflexivity.
Qed.

Lemma bad_cell_stops_run_witness :
  main [header_row; nop_row 16; ["0x"; "NOP 2"; "LDA abx !"]; nop_row 16]
  = ([header; serialize_row (repeat nop 16)], Raise ValueError).
Proof.
  apply (bad_cell_stops_run _ [nop_row 16] [nop_row 16] [repeat nop 16]
           ["0x"; "NOP 2"; "LDA abx !"] "LDA abx !" ValueError).
  - reflexivity.
  - constructor; [apply nop_row_derived | constructor].
  - simpl. tauto.
  - reflexivity.
Defined.

(** X10.  The run ends with [IndexError] exactly when fewer than 16
    rows follow row 0 and every cell after cell 0 of the rows present
    parses. *)
Theorem index_error_iff (rows : list (list string)) :
  outcome (main rows) = Raise IndexError
  <-> List.length rows < 17
      /\ exists table, Forall2 derived_row (tl rows) table.
Proof.
  split.
  - rewrite main_unfold, length_tl_lt.
    pose proof (emit_rows_inv (firstn 16 (tl rows))) as Hinv.
    pose proof (emit_rows_raise_inv (firstn 16 (tl rows))) as Hraise.
    pose proof (firstn_all2 (n := 16) (tl rows)) as Hall.
    pose proof (length_tl_lt rows) as Ht.
    revert Hinv Hraise Hall. generalize (firstn 16 (tl rows)) as rs.
    intros rs Hinv Hraise Hall.
    destruct (emit_rows rs) as [out [[] |]]; simpl in *.
    + destruct (List.length rows <? 17)%nat eqn:Hlen; simpl; [| discriminate].
      intros _. apply Nat.ltb_lt in Ht, Hlen.
      split; [exact Hlen |]. rewrite <- Hall by lia. now apply Hinv.
    + intros [= ->]. destruct (Hraise IndexError eq_refl) as [Habs _].
      discriminate Habs.
  - intros [Hlen [table Ht]].
    assert (Hall : firstn 16 (tl rows) = tl rows).
    { apply firstn_all2. destruct rows; simpl in *; lia. }
    rewrite <- Hall in Ht. rewrite (main_parsed rows table Ht).
    apply Nat.ltb_lt in Hlen. now rewrite Hlen.
Qed.

Lemma index_error_iff_witness :
  outcome (main short) = Raise IndexError.
Proof.
  apply (proj2 (index_error_iff short)). split.
  - simpl. lia.
  - exists (repeat (repeat nop 16) 15).
    apply (Forall2_repeat derived_row (nop_row 16) (repeat nop 16) 15).
    apply nop_row_derived.
Defined.

(** X11.  The run ends with [ValueError] exactly when, among the first
    16 rows after row 0, some cell after cell 0 does not parse. *)
Theorem value_error_iff (rows : list (list string)) :
  outcome (main rows) = Raise ValueError
  <-> exists row cell e,
        In row (firstn 16 (tl rows)) /\ In cell (tl row)
        /\ parse_cell (Py.join_split cell) = Raise e.
Proof.
  rewrite main_unfold, length_tl_lt.
  pose proof (emit_rows_raise_inv (firstn 16 (tl rows))) as Hinv.
  pose proof (emit_rows_raise (firstn 16 (tl rows))) as Hraise.
  revert Hinv Hraise. generalize (firstn 16 (tl rows)) as rs.
  intros rs Hinv Hraise. split.
  - destruct (emit_rows rs) as [out [[] |]]; simpl in *.
    + destruct (List.length rows <? 17)%nat; simpl; discriminate.
    + intros _. exact (proj2 (Hinv e eq_refl)).
  - intros (row & cell & e & Hrow & Hcell & He).
    specialize (Hraise row cell e Hrow Hcell He).
    destruct (emit_rows rs) as [out [[] |]]; simpl in *; congruence.
Qed.

Lemma value_error_iff_witness :
  outcome (main [header_row; ["0x"; "LDA abx !"]]) = Raise ValueError.
Proof.
  apply (proj2 (value_error_iff [header_row; ["0x"; "LDA abx !"]])).
  exists ["0x"; "LDA abx !"], "LDA abx !", ValueError.
  split; [simpl; tauto | split; [simpl; tauto | reflexivity]].
Defined.

(** X12.  A row with no cell, or with its index cell only, is no
    failure: the slice [[1:]] of line 20 is empty and the row is printed
    as an empty array. *)
Theorem row_without_cells (row : list string) :
  List.length row <= 1 -> row_line row = Ok "[],".
Proof.
  destruct row as [| c [| c' row]]; simpl; try reflexivity. lia.
Qed.

Lemma row_without_cells_witness :
  List.length ["0x"] <= 1 /\ row_line ["0x"] = Ok "[],".
Proof. split; [simpl; lia |]. apply (row_without_cells ["0x"]). simpl. lia. Defined.
